(** * Life-Pro-Tips: reputation, vote toggles and deletion

    A shallow embedding of the Django application in [ex/models.py],
    [ex/views.py] and [ex/middleware.py].

    The relational store is a pair of tables keyed by primary key; the two
    many-to-many join tables of a tip are the finite sets [upvotes] and
    [downvotes] of user keys.  Python integers are unbounded, so the
    reputation arithmetic is done in [Z]. *)

From stdpp Require Import gmap strings list fin_maps.
From Stdlib Require Import ZArith Lia.

(* stdpp's [naive_solver] clears hypotheses by name and reports the ones
   that are already gone; the report carries no information. *)
#[local] Set Warnings "-clear-no-such-hyp".

(** ** Data model ([ex/models.py]) *)

(** Of the fields [CustomUser] inherits from [AbstractUser] only
    [is_superuser] plays a part in the views below. *)
Record CustomUser := mkUser {
  reputation : Z;
  is_superuser : bool
}.

Record Tip := mkTip {
  content : string;
  author : nat;
  date : Z;
  upvotes : gset nat;
  downvotes : gset nat
}.

Record DB := mkDB {
  users : gmap nat CustomUser;
  tips : gmap nat Tip
}.

Definition set_reputation (u : CustomUser) (r : Z) : CustomUser :=
  {| reputation := r; is_superuser := is_superuser u |}.

Definition set_upvotes (t : Tip) (s : gset nat) : Tip :=
  {| content := content t; author := author t; date := date t;
     upvotes := s; downvotes := downvotes t |}.

Definition set_downvotes (t : Tip) (s : gset nat) : Tip :=
  {| content := content t; author := author t; date := date t;
     upvotes := upvotes t; downvotes := s |}.

Definition set_users (db : DB) (us : gmap nat CustomUser) : DB :=
  {| users := us; tips := tips db |}.

Definition set_tips (db : DB) (ts : gmap nat Tip) : DB :=
  {| users := users db; tips := ts |}.

(** ** [CustomUser] methods *)

(** [self.reputation >= 15 or self.is_superuser] *)
Definition can_downvote (self : CustomUser) : bool :=
  (15 <=? reputation self)%Z || is_superuser self.

(** [self.reputation >= 30 or self.is_superuser] *)
Definition can_delete_tips (self : CustomUser) : bool :=
  (30 <=? reputation self)%Z || is_superuser self.

(** [self.tips.all()]: the rows of the tip table whose author key is [pk],
    in whatever order the store returns them. *)
Definition tips_all (pk : nat) (db : DB) : list Tip :=
  filter (λ t, author t = pk) (map_to_list (tips db)).*2.

(** One iteration of the loop body of [update_reputation]:
    [reputation += tip.upvotes.count() * 5] and then
    [reputation -= tip.downvotes.count() * 2]. *)
Definition reputation_step (reputation : Z) (tip : Tip) : Z :=
  (reputation + Z.of_nat (size (upvotes tip)) * 5
   - Z.of_nat (size (downvotes tip)) * 2)%Z.

(** The [for] loop, started from the accumulator [acc]. *)
Definition reputation_loop (acc : Z) (ts : list Tip) : Z :=
  fold_left reputation_step ts acc.

(** [update_reputation]: [self] is the Python object the method is called
    on and [pk] its primary key; [self.save()] writes the whole object back
    to its row. *)
Definition update_reputation (pk : nat) (self : CustomUser) (db : DB) : DB :=
  let reputation := reputation_loop 0 (tips_all pk db) in
  set_users db (<[pk := set_reputation self (Z.max reputation 0)]> (users db)).

(** ** The specification's reputation formula *)

(** [5 * upvoteCount - 2 * downvoteCount] of one tip. *)
Definition tip_score (t : Tip) : Z :=
  (5 * Z.of_nat (size (upvotes t)) - 2 * Z.of_nat (size (downvotes t)))%Z.

(** The raw total over every tip authored by [pk], written as a sum over
    the sub-table of the author's tips. *)
Definition raw_score (pk : nat) (db : DB) : Z :=
  map_fold (λ _ t acc, (tip_score t + acc)%Z) 0%Z
           (filter (λ kt, author kt.2 = pk) (tips db)).

(** The raw total clamped at zero. *)
Definition spec_reputation (pk : nat) (db : DB) : Z :=
  Z.max 0 (raw_score pk db).

(** The (upvotes, downvotes) counts of a tip. *)
Definition vote_counts (t : Tip) : nat * nat :=
  (size (upvotes t), size (downvotes t)).

(** The sum of the scores of a list of tips. *)
Definition sum_scores (ts : list Tip) : Z :=
  foldr (λ t acc, (tip_score t + acc)%Z) 0%Z ts.

(** The score of a list of (upvotes, downvotes) counts. *)
Definition counts_total (l : list (nat * nat)) : Z :=
  foldr (λ c acc, (5 * Z.of_nat c.1 - 2 * Z.of_nat c.2 + acc)%Z) 0%Z l.

(** What one tip adds to the raw total of [pk]. *)
Definition own_score (pk : nat) (t : Tip) : Z :=
  if decide (author t = pk) then tip_score t else 0%Z.

(** ** [Tip] methods *)

(** [Tip.save] for a tip that has no row yet: [super().save()] inserts the
    row under the key [pk] the store assigns, then
    [self.author.update_reputation()] runs on the author object [a] the tip
    holds. *)
Definition Tip_save (pk : nat) (self : Tip) (a : CustomUser) (db : DB) : DB :=
  update_reputation (author self) a (set_tips db (<[pk := self]> (tips db))).

(** [Tip.delete]: [author = self.author], [super().delete()] (the join-table
    rows go with the tip), then [author.update_reputation()]. *)
Definition Tip_delete (pk : nat) (self : Tip) (a : CustomUser) (db : DB) : DB :=
  update_reputation (author self) a (set_tips db (delete pk (tips db))).

(** ** Views ([ex/views.py]) *)

(** What a view answers: [redirect(to)] (for the login page without its
    [next] parameter), [HttpResponseForbidden(msg)], the [Http404] of
    [get_object_or_404], or the server error of an exception that escapes
    the view. *)
Inductive HttpResponse :=
| Redirect (to : string)
| HttpResponseForbidden (msg : string)
| Http404
| ServerError.

(** A request: the session's user key ([None] for an anonymous visitor),
    the cookies it carries and the [defaultName] attribute the middleware
    sets on it. *)
Record HttpRequest := mkRequest {
  session_user : option nat;
  COOKIES : gmap string string;
  defaultName : option string
}.

(** [request.user]: the row of the session's user, or the anonymous user
    ([None]) when there is no session user or its row is gone. *)
Definition request_user (request : HttpRequest) (db : DB)
  : option (nat * CustomUser) :=
  pk ← session_user request; u ← users db !! pk; Some (pk, u).

(** [@login_required(login_url=...)]: the view runs for an authenticated
    user and anyone else is sent to the login page. *)
Definition login_required (login_url : string)
    (view : nat * CustomUser → DB → HttpResponse * DB)
    (request : HttpRequest) (db : DB) : HttpResponse * DB :=
  match request_user request db with
  | Some user => view user db
  | None => (Redirect login_url, db)
  end.

(** [tip.author]: fetching the related row raises [DoesNotExist] ([None])
    when it is missing, which the foreign key of a real store rules out. *)
Definition tip_author (tip : Tip) (db : DB) : option CustomUser :=
  users db !! author tip.

(** The two [if] statements of [upvote_tip] on the vote sets of [tip]. *)
Definition upvote_toggle (user : nat) (tip : Tip) : Tip :=
  let tip :=
    if bool_decide (user ∈ downvotes tip)
    then set_downvotes tip (downvotes tip ∖ {[user]})
    else tip in
  if bool_decide (user ∈ upvotes tip)
  then set_upvotes tip (upvotes tip ∖ {[user]})
  else set_upvotes tip ({[user]} ∪ upvotes tip).

(** The two [if] statements of [downvote_tip] inside the permission gate. *)
Definition downvote_toggle (user : nat) (tip : Tip) : Tip :=
  let tip :=
    if bool_decide (user ∈ upvotes tip)
    then set_upvotes tip (upvotes tip ∖ {[user]})
    else tip in
  if bool_decide (user ∈ downvotes tip)
  then set_downvotes tip (downvotes tip ∖ {[user]})
  else set_downvotes tip ({[user]} ∪ downvotes tip).

Definition upvote_tip_body (tip_id : nat) (user : nat * CustomUser) (db : DB)
  : HttpResponse * DB :=
  match tips db !! tip_id with
  | None => (Http404, db)
  | Some tip =>
      let tip := upvote_toggle user.1 tip in
      let db := set_tips db (<[tip_id := tip]> (tips db)) in
      match tip_author tip db with
      | None => (ServerError, db)
      | Some a => (Redirect "home", update_reputation (author tip) a db)
      end
  end.

Definition upvote_tip (request : HttpRequest) (tip_id : nat) (db : DB)
  : HttpResponse * DB :=
  login_required "/login" (upvote_tip_body tip_id) request db.

Definition downvote_tip_body (tip_id : nat) (user : nat * CustomUser) (db : DB)
  : HttpResponse * DB :=
  match tips db !! tip_id with
  | None => (Http404, db)
  | Some tip =>
      match tip_author tip db with
      | None => (ServerError, db)
      | Some a =>
          if bool_decide (user.1 = author tip) || can_downvote user.2 then
            let tip := downvote_toggle user.1 tip in
            let db := set_tips db (<[tip_id := tip]> (tips db)) in
            (Redirect "home", update_reputation (author tip) a db)
          else
            (HttpResponseForbidden
               "You don't have permission to downvote this tip.", db)
      end
  end.

Definition downvote_tip (request : HttpRequest) (tip_id : nat) (db : DB)
  : HttpResponse * DB :=
  login_required "/login" (downvote_tip_body tip_id) request db.

Definition delete_tip_body (tip_id : nat) (user : nat * CustomUser) (db : DB)
  : HttpResponse * DB :=
  match tips db !! tip_id with
  | None => (Http404, db)
  | Some tip =>
      match tip_author tip db with
      | None => (ServerError, db)
      | Some a =>
          if bool_decide (user.1 = author tip) || can_delete_tips user.2 then
            (Redirect "home", Tip_delete tip_id tip a db)
          else
            (HttpResponseForbidden
               "You don't have permission to delete this tip.", db)
      end
  end.

Definition delete_tip (request : HttpRequest) (tip_id : nat) (db : DB)
  : HttpResponse * DB :=
  login_required "/login" (delete_tip_body tip_id) request db.

(** The tip [form.save(commit=False)] builds, with [tip.author] set: no
    votes yet. *)
Definition new_tip (pk : nat) (text : string) (now : Z) : Tip :=
  {| content := text; author := pk; date := now;
     upvotes := ∅; downvotes := ∅ |}.

(** [HomePageView.post]: [form] is the outcome of [TipForm(request.POST)],
    [None] when [form.is_valid()] fails and otherwise the cleaned [content];
    [now] is the clock reading that becomes the tip's [date].  The new row
    gets a key that is not yet in the tip table. *)
Definition HomePageView_post (request : HttpRequest) (form : option string)
    (now : Z) (db : DB) : HttpResponse * DB :=
  match request_user request db, form with
  | Some (pk, u), Some text =>
      let tip := new_tip pk text now in
      (Redirect "home", Tip_save (fresh (dom (tips db))) tip u db)
  | _, _ => (Redirect "home", db)
  end.

(** ** Routing ([ex/urls.py]) and runs of requests *)

Inductive Action :=
| PostHome (form : option string) (now : Z)
| PostUpvote (tip_id : nat)
| PostDownvote (tip_id : nat)
| PostDelete (tip_id : nat).

Definition dispatch (request : HttpRequest) (a : Action) (db : DB)
  : HttpResponse * DB :=
  match a with
  | PostHome form now => HomePageView_post request form now db
  | PostUpvote tip_id => upvote_tip request tip_id db
  | PostDownvote tip_id => downvote_tip request tip_id db
  | PostDelete tip_id => delete_tip request tip_id db
  end.

(** Requests are handled one at a time, each on the store the previous one
    left. *)
Definition run (reqs : list (HttpRequest * Action)) (db : DB) : DB :=
  fold_left (λ db ra, (dispatch ra.1 ra.2 db).2) reqs db.

(** ** Vote states *)

Inductive VoteState := NONE | UP | DOWN | BOTH.

Definition vote_state (user : nat) (tip : Tip) : VoteState :=
  match bool_decide (user ∈ upvotes tip), bool_decide (user ∈ downvotes tip) with
  | false, false => NONE
  | true, false => UP
  | false, true => DOWN
  | true, true => BOTH
  end.

(** The invariant of the tip table: no tip has a user in both vote sets. *)
Definition votes_disjoint (db : DB) : Prop :=
  map_Forall (λ _ tip, upvotes tip ∩ downvotes tip = ∅) (tips db).

(** The invariant of the user table. *)
Definition reputations_nonneg (db : DB) : Prop :=
  map_Forall (λ _ u, (0 ≤ reputation u)%Z) (users db).

(** Every stored reputation is the clamped raw total of its user's tips. *)
Definition reputations_in_sync (db : DB) : Prop :=
  map_Forall (λ pk u, reputation u = spec_reputation pk db) (users db).

(** ** What one request can do to the store *)

(** The store changes a request can make: none at all (a redirect to the
    login page, a 404, a refusal, an invalid form), a new tip, a vote
    toggle followed by the author's recomputation, an upvote toggle on a
    tip whose author row is missing (the view fails after the toggle), or a
    deletion. *)
Inductive store_step (db : DB) : DB → Prop :=
| step_none :
    store_step db db
| step_post pk u text now :
    users db !! pk = Some u →
    store_step db (Tip_save (fresh (dom (tips db))) (new_tip pk text now) u db)
| step_upvote voter tip_id tip a :
    tips db !! tip_id = Some tip → users db !! author tip = Some a →
    store_step db
      (update_reputation (author tip) a
         (set_tips db (<[tip_id := upvote_toggle voter tip]> (tips db))))
| step_upvote_orphan voter tip_id tip :
    tips db !! tip_id = Some tip → users db !! author tip = None →
    store_step db
      (set_tips db (<[tip_id := upvote_toggle voter tip]> (tips db)))
| step_downvote voter tip_id tip a :
    tips db !! tip_id = Some tip → users db !! author tip = Some a →
    store_step db
      (update_reputation (author tip) a
         (set_tips db (<[tip_id := downvote_toggle voter tip]> (tips db))))
| step_delete tip_id tip a :
    tips db !! tip_id = Some tip → users db !! author tip = Some a →
    store_step db (Tip_delete tip_id tip a db).

(** ** Guest names ([ex/middleware.py]) *)

Module Middleware.

(** A cookie set on a response: its value and its [max_age] in seconds. *)
Record Morsel := mkMorsel {
  value : string;
  max_age : option Z
}.

Record Response := mkResponse {
  payload : HttpResponse;
  cookies : gmap string Morsel
}.

(** [response.set_cookie(key, value, max_age=max_age)] *)
Definition set_cookie (key val : string) (age : Z) (response : Response)
  : Response :=
  {| payload := payload response;
     cookies := <[key := {| value := val; max_age := Some age |}]>
                  (cookies response) |}.

Definition set_defaultName (request : HttpRequest) (name : string)
  : HttpRequest :=
  {| session_user := session_user request;
     COOKIES := COOKIES request;
     defaultName := Some name |}.

(** [random.choice(seq)]: [IndexError] ([None]) on an empty sequence,
    otherwise the element at the drawn index; [draw] is the random number
    the generator produces, reduced to the range of the sequence. *)
Definition random_choice (seq : list string) (draw : nat) : option string :=
  match seq with
  | [] => None
  | _ => seq !! (draw `mod` length seq)
  end.

(** The [try]/[except] of [__call__]; [NAMES_LIST] is [None] when the
    settings module has no such attribute ([AttributeError]). *)
Definition choose_username (NAMES_LIST : option (list string)) (draw : nat)
  : string :=
  match NAMES_LIST with
  | None => "defaultName"
  | Some names =>
      match random_choice names draw with
      | Some name => name
      | None => "defaultName"
      end
  end.

Section Call.
(** The state the wrapped handler threads (the store). *)
Context {S : Type}.
Variable NAMES_LIST : option (list string).
Variable get_response : HttpRequest → S → Response * S.

(** [UsernameMiddleware.__call__]; a missing and an empty cookie are
    both falsy. *)
Definition UsernameMiddleware_call (draw : nat) (request : HttpRequest)
    (st : S) : Response * S :=
  match COOKIES request !! "defaultName" with
  | Some (String c name) =>
      get_response (set_defaultName request (String c name)) st
  | _ =>
      let username := choose_username NAMES_LIST draw in
      let '(response, st) :=
        get_response (set_defaultName request username) st in
      (set_cookie "defaultName" username 42 response, st)
  end.
End Call.

End Middleware.

(** ** Sample stores *)

Definition alice : CustomUser := {| reputation := 0; is_superuser := false |}.
Definition bob : CustomUser := {| reputation := 14; is_superuser := false |}.
Definition carol : CustomUser := {| reputation := 15; is_superuser := false |}.
Definition dave : CustomUser := {| reputation := 30; is_superuser := false |}.
Definition root : CustomUser := {| reputation := 0; is_superuser := true |}.

Definition sample_tip (a : nat) (up down : list nat) : Tip :=
  {| content := "Drink water."; author := a; date := 0;
     upvotes := list_to_set up; downvotes := list_to_set down |}.

(** Alice (key 1) wrote tips 10, 11 and 12 with (upvotes, downvotes) counts
    (2,0), (1,1) and (0,3); bob (key 2) wrote tip 13.  The stored
    reputations sit at the boundaries of the two gates. *)
Definition db_three : DB :=
  {| users := <[1 := alice]> (<[2 := bob]> (<[3 := carol]>
                (<[4 := dave]> (<[5 := root]> ∅))));
     tips := <[10 := sample_tip 1 [2; 3] []]>
               (<[11 := sample_tip 1 [2] [3]]>
                  (<[12 := sample_tip 1 [] [3; 4; 5]]>
                     (<[13 := sample_tip 2 [1] []]> ∅))) |}.

(** Alice and root; alice has one tip, without votes. *)
Definition db_pair : DB :=
  {| users := <[1 := alice]> {[5 := root]};
     tips := {[10 := sample_tip 1 [] []]} |}.

(** The same after root's downvote: alice's raw total is -2 and her stored
    reputation is the clamped 0. *)
Definition db_downvoted : DB :=
  {| users := <[1 := alice]> {[5 := root]};
     tips := {[10 := sample_tip 1 [] [5]]} |}.

(** Alice's only tip has no upvotes and the downvotes of twenty
    superusers, keys 100 to 119. *)
Definition db_twenty : DB :=
  {| users := <[1 := alice]> (list_to_map ((λ k, (k, root)) <$> seq 100 20));
     tips := {[10 := sample_tip 1 [] (seq 100 20)]} |}.

Definition as_user (pk : nat) : HttpRequest :=
  {| session_user := Some pk; COOKIES := ∅; defaultName := None |}.

Definition anonymous : HttpRequest :=
  {| session_user := None; COOKIES := ∅; defaultName := None |}.

(** A handler that answers every request with a redirect to the home page
    and sets no cookie. *)
Definition plain_home (request : HttpRequest) (db : DB)
  : Middleware.Response * DB :=
  ({| Middleware.payload := Redirect "home"; Middleware.cookies := ∅ |}, db).

(** * Properties *)

(** ** Sums of tip scores *)

Lemma reputation_loop_sum ts acc :
  reputation_loop acc ts = (acc + sum_scores ts)%Z.
Proof.
  unfold reputation_loop. revert acc.
  induction ts as [|t ts IH]; intros acc; simpl.
  - lia.
  - rewrite IH. unfold reputation_step, tip_score. lia.
Qed.

Lemma sum_scores_perm ts1 ts2 :
  ts1 ≡ₚ ts2 → sum_scores ts1 = sum_scores ts2.
Proof.
  induction 1; simpl; lia.
Qed.

Lemma map_to_list_filter_perm (P : nat * Tip → Prop)
    `{!∀ kt, Decision (P kt)} (m : gmap nat Tip) :
  map_to_list (filter P m) ≡ₚ filter P (map_to_list m).
Proof.
  apply NoDup_Permutation.
  - apply NoDup_map_to_list.
  - apply NoDup_filter, NoDup_map_to_list.
  - intros [k t]. rewrite elem_of_map_to_list, map_lookup_filter_Some.
    rewrite list_elem_of_filter, elem_of_map_to_list. tauto.
Qed.

Lemma raw_score_tips_all pk db :
  raw_score pk db = sum_scores (tips_all pk db).
Proof.
  unfold raw_score, tips_all.
  rewrite map_fold_foldr.
  set (P := λ kt : nat * Tip, author kt.2 = pk).
  assert (Hperm : (map_to_list (filter P (tips db))).*2
                  ≡ₚ filter (λ t, author t = pk) (map_to_list (tips db)).*2).
  { rewrite map_to_list_filter_perm.
    generalize (map_to_list (tips db)). intros l.
    induction l as [|[k t] l IH]; [done|].
    rewrite filter_cons. simpl. rewrite filter_cons.
    unfold P at 1. simpl.
    destruct (decide (author t = pk)); simpl; by rewrite IH. }
  rewrite <- (sum_scores_perm _ _ Hperm).
  generalize (map_to_list (filter P (tips db))). intros l.
  induction l as [|[k t] l IH]; simpl; [done|]. by rewrite IH.
Qed.

(** ** Reputation recomputation *)

Lemma reputation_loop_raw pk db :
  reputation_loop 0 (tips_all pk db) = raw_score pk db.
Proof. rewrite reputation_loop_sum, raw_score_tips_all. lia. Qed.

Lemma update_reputation_users pk self db :
  users (update_reputation pk self db)
  = <[pk := set_reputation self (spec_reputation pk db)]> (users db).
Proof.
  unfold update_reputation, spec_reputation. simpl.
  by rewrite reputation_loop_raw, Z.max_comm.
Qed.

Lemma update_reputation_tips pk self db :
  tips (update_reputation pk self db) = tips db.
Proof. done. Qed.

Lemma counts_total_perm l1 l2 :
  l1 ≡ₚ l2 → counts_total l1 = counts_total l2.
Proof. induction 1; simpl; lia. Qed.

Lemma sum_scores_counts ts :
  sum_scores ts = counts_total (vote_counts <$> ts).
Proof.
  induction ts as [|t ts IH]; [done|].
  rewrite fmap_cons. simpl. rewrite IH.
  unfold tip_score, vote_counts. simpl. lia.
Qed.

(** C1: [update_reputation] stores, for the user it is called on, the
    maximum of 0 and the sum over all tips authored by that user of
    5 times the number of upvoters minus 2 times the number of downvoters,
    and touches nothing else.  An author whose three tips have
    (upvotes, downvotes) counts (2,0), (1,1) and (0,3) ends with
    reputation 7, and an author without tips ends with 0. *)
Theorem update_reputation_formula pk self db :
  let db' := update_reputation pk self db in
  users db' !! pk = Some (set_reputation self (spec_reputation pk db))
  ∧ reputation <$> users db' !! pk
    = Some (Z.max 0 (counts_total (vote_counts <$> tips_all pk db)))
  ∧ (∀ pk', pk' ≠ pk → users db' !! pk' = users db !! pk')
  ∧ tips db' = tips db
  ∧ (vote_counts <$> tips_all pk db ≡ₚ [(2, 0); (1, 1); (0, 3)]%nat →
     reputation <$> users db' !! pk = Some 7%Z)
  ∧ (tips_all pk db = [] → reputation <$> users db' !! pk = Some 0%Z).
Proof.
  intros db'. subst db'.
  assert (Hrep : reputation <$> users (update_reputation pk self db) !! pk
            = Some (Z.max 0 (counts_total (vote_counts <$> tips_all pk db)))).
  { rewrite update_reputation_users, lookup_insert_eq. simpl.
    unfold spec_reputation.
    by rewrite raw_score_tips_all, sum_scores_counts. }
  split_and!.
  - by rewrite update_reputation_users, lookup_insert_eq.
  - exact Hrep.
  - intros pk' Hne. rewrite update_reputation_users.
    by rewrite lookup_insert_ne.
  - done.
  - intros Hperm. rewrite Hrep.
    by rewrite (counts_total_perm _ _ Hperm).
  - intros Hnil. rewrite Hrep, Hnil. done.
Qed.

(** ** Requests and toggles *)

Lemma request_user_Some request db pk u :
  session_user request = Some pk → users db !! pk = Some u →
  request_user request db = Some (pk, u).
Proof. intros Hs Hu. unfold request_user. rewrite Hs. simpl. by rewrite Hu. Qed.

Lemma request_user_inv request db pk u :
  request_user request db = Some (pk, u) →
  session_user request = Some pk ∧ users db !! pk = Some u.
Proof.
  unfold request_user. destruct (session_user request) as [k|]; [|done].
  simpl. destruct (users db !! k) as [v|] eqn:Hk; [|done].
  simpl. intros [= <- <-]. done.
Qed.

Lemma upvote_toggle_author user tip :
  author (upvote_toggle user tip) = author tip.
Proof. unfold upvote_toggle. repeat case_bool_decide; done. Qed.

Lemma downvote_toggle_author user tip :
  author (downvote_toggle user tip) = author tip.
Proof. unfold downvote_toggle. repeat case_bool_decide; done. Qed.

Lemma upvote_toggle_disjoint user tip :
  upvotes tip ∩ downvotes tip = ∅ →
  upvotes (upvote_toggle user tip) ∩ downvotes (upvote_toggle user tip) = ∅.
Proof.
  intros H. unfold upvote_toggle.
  repeat case_bool_decide; simpl in *; set_solver.
Qed.

Lemma downvote_toggle_disjoint user tip :
  upvotes tip ∩ downvotes tip = ∅ →
  upvotes (downvote_toggle user tip) ∩ downvotes (downvote_toggle user tip) = ∅.
Proof.
  intros H. unfold downvote_toggle.
  repeat case_bool_decide; simpl in *; set_solver.
Qed.

(** ** The views on an authenticated request for a tip in the store *)

Section Authenticated.
Variables (request : HttpRequest) (tip_id : nat) (db : DB).
Variables (pk : nat) (u : CustomUser) (tip : Tip).
Hypothesis Hsession : session_user request = Some pk.
Hypothesis Huser : users db !! pk = Some u.
Hypothesis Htip : tips db !! tip_id = Some tip.

Lemma upvote_tip_unfold :
  upvote_tip request tip_id db
  = let db1 := set_tips db (<[tip_id := upvote_toggle pk tip]> (tips db)) in
    match users db !! author tip with
    | Some a => (Redirect "home", update_reputation (author tip) a db1)
    | None => (ServerError, db1)
    end.
Proof.
  unfold upvote_tip, login_required, upvote_tip_body.
  rewrite (request_user_Some _ _ _ _ Hsession Huser), Htip.
  unfold tip_author.
  cbn [fst users set_tips]. by rewrite upvote_toggle_author.
Qed.

Lemma upvote_tip_tips :
  tips (upvote_tip request tip_id db).2
  = <[tip_id := upvote_toggle pk tip]> (tips db).
Proof.
  rewrite upvote_tip_unfold.
  cbn zeta. by destruct (users db !! author tip).
Qed.

Lemma downvote_tip_permitted a :
  users db !! author tip = Some a →
  bool_decide (pk = author tip) || can_downvote u = true →
  downvote_tip request tip_id db
  = (Redirect "home",
     update_reputation (author tip) a
       (set_tips db (<[tip_id := downvote_toggle pk tip]> (tips db)))).
Proof.
  intros Ha Hp.
  unfold downvote_tip, login_required, downvote_tip_body.
  rewrite (request_user_Some _ _ _ _ Hsession Huser), Htip.
  unfold tip_author.
  rewrite Ha. simpl. rewrite Hp. by rewrite downvote_toggle_author.
Qed.

Lemma downvote_tip_refused a :
  users db !! author tip = Some a →
  bool_decide (pk = author tip) || can_downvote u = false →
  downvote_tip request tip_id db
  = (HttpResponseForbidden "You don't have permission to downvote this tip.",
     db).
Proof.
  intros Ha Hp.
  unfold downvote_tip, login_required, downvote_tip_body.
  rewrite (request_user_Some _ _ _ _ Hsession Huser), Htip.
  unfold tip_author.
  rewrite Ha. simpl. by rewrite Hp.
Qed.

Lemma delete_tip_permitted a :
  users db !! author tip = Some a →
  bool_decide (pk = author tip) || can_delete_tips u = true →
  delete_tip request tip_id db
  = (Redirect "home", Tip_delete tip_id tip a db).
Proof.
  intros Ha Hp.
  unfold delete_tip, login_required, delete_tip_body.
  rewrite (request_user_Some _ _ _ _ Hsession Huser), Htip.
  unfold tip_author.
  rewrite Ha. simpl. by rewrite Hp.
Qed.

Lemma delete_tip_refused a :
  users db !! author tip = Some a →
  bool_decide (pk = author tip) || can_delete_tips u = false →
  delete_tip request tip_id db
  = (HttpResponseForbidden "You don't have permission to delete this tip.",
     db).
Proof.
  intros Ha Hp.
  unfold delete_tip, login_required, delete_tip_body.
  rewrite (request_user_Some _ _ _ _ Hsession Huser), Htip.
  unfold tip_author.
  rewrite Ha. simpl. by rewrite Hp.
Qed.

End Authenticated.

(** ** How the raw total follows the tip table *)

Lemma raw_score_ext pk db1 db2 :
  tips db1 = tips db2 → raw_score pk db1 = raw_score pk db2.
Proof. unfold raw_score. by intros ->. Qed.

Lemma raw_score_insert_fresh pk db tip_id t :
  tips db !! tip_id = None →
  raw_score pk (set_tips db (<[tip_id := t]> (tips db)))
  = (own_score pk t + raw_score pk db)%Z.
Proof.
  intros Hfresh. unfold raw_score, own_score. simpl.
  rewrite map_filter_insert. simpl.
  destruct (decide (author t = pk)) as [Ha|Ha].
  - rewrite map_fold_insert_L; [done| |].
    + intros. lia.
    + by rewrite map_lookup_filter_None_2; [|left].
  - by rewrite delete_id.
Qed.

Lemma raw_score_delete pk db tip_id t :
  tips db !! tip_id = Some t →
  raw_score pk (set_tips db (delete tip_id (tips db)))
  = (raw_score pk db - own_score pk t)%Z.
Proof.
  intros Ht.
  pose proof (raw_score_insert_fresh pk
                (set_tips db (delete tip_id (tips db))) tip_id t) as H.
  simpl in H. rewrite lookup_delete_eq, insert_delete_id in H by done.
  specialize (H eq_refl).
  rewrite (raw_score_ext pk _ db) in H by done.
  lia.
Qed.

Lemma raw_score_replace pk db tip_id t t' :
  tips db !! tip_id = Some t →
  raw_score pk (set_tips db (<[tip_id := t']> (tips db)))
  = (raw_score pk db - own_score pk t + own_score pk t')%Z.
Proof.
  intros Ht.
  pose proof (raw_score_insert_fresh pk
                (set_tips db (delete tip_id (tips db))) tip_id t') as H.
  simpl in H. rewrite lookup_delete_eq, insert_delete_eq in H.
  specialize (H eq_refl).
  rewrite (raw_score_ext pk _ (set_tips db (<[tip_id := t']> (tips db))))
    in H by done.
  rewrite H, (raw_score_delete pk db tip_id t Ht). lia.
Qed.

Lemma raw_score_replace_other pk db tip_id t t' :
  tips db !! tip_id = Some t → author t' = author t → pk ≠ author t →
  raw_score pk (set_tips db (<[tip_id := t']> (tips db))) = raw_score pk db.
Proof.
  intros Ht Hauth Hne. rewrite (raw_score_replace _ _ _ _ _ Ht).
  unfold own_score. rewrite !decide_False by congruence. lia.
Qed.

Lemma spec_reputation_ext pk db1 db2 :
  tips db1 = tips db2 → spec_reputation pk db1 = spec_reputation pk db2.
Proof. unfold spec_reputation. by intros ->%(raw_score_ext pk). Qed.

(** ** Requests as store steps *)

Lemma dispatch_step request a db : store_step db (dispatch request a db).2.
Proof.
  destruct a as [form now|tip_id|tip_id|tip_id]; simpl.
  - unfold HomePageView_post.
    destruct (request_user request db) as [[pk u]|] eqn:Hreq;
      [|apply step_none].
    destruct form as [text|]; [|apply step_none].
    apply request_user_inv in Hreq as [_ Hu]. by apply step_post.
  - unfold upvote_tip, login_required, upvote_tip_body.
    destruct (request_user request db) as [[pk u]|]; [|apply step_none].
    destruct (tips db !! tip_id) as [tip|] eqn:Htip; [|apply step_none].
    unfold tip_author. cbn [fst users set_tips].
    rewrite upvote_toggle_author.
    destruct (users db !! author tip) as [a|] eqn:Ha.
    + by apply step_upvote.
    + by apply step_upvote_orphan.
  - unfold downvote_tip, login_required, downvote_tip_body.
    destruct (request_user request db) as [[pk u]|]; [|apply step_none].
    destruct (tips db !! tip_id) as [tip|] eqn:Htip; [|apply step_none].
    destruct (tip_author tip db) as [a|] eqn:Ha; [|apply step_none].
    destruct (_ || _); [|apply step_none].
    cbn [fst snd]. rewrite downvote_toggle_author. by apply step_downvote.
  - unfold delete_tip, login_required, delete_tip_body.
    destruct (request_user request db) as [[pk u]|]; [|apply step_none].
    destruct (tips db !! tip_id) as [tip|] eqn:Htip; [|apply step_none].
    destruct (tip_author tip db) as [a|] eqn:Ha; [|apply step_none].
    destruct (_ || _); [|apply step_none].
    by apply step_delete.
Qed.

Lemma run_snoc reqs ra db :
  run (reqs ++ [ra]) db = (dispatch ra.1 ra.2 (run reqs db)).2.
Proof. unfold run. by rewrite fold_left_app. Qed.

Lemma run_steps reqs db : rtc store_step db (run reqs db).
Proof.
  induction reqs as [|ra reqs IH] using rev_ind; [done|].
  rewrite run_snoc. eapply rtc_r; [exact IH|]. apply dispatch_step.
Qed.

(** An invariant of the steps is an invariant of every run. *)
Lemma run_invariant (I : DB → Prop) :
  (∀ db db', store_step db db' → I db → I db') →
  ∀ reqs db, I db → I (run reqs db).
Proof.
  intros Hstep reqs db Hdb.
  induction (run_steps reqs db) as [|db1 db2 db3 H12 _ IH]; [done|].
  apply IH. by apply (Hstep db1).
Qed.

(** ** Invariant: the vote sets of a tip are disjoint *)

Lemma votes_disjoint_insert db tip_id tip :
  votes_disjoint db → upvotes tip ∩ downvotes tip = ∅ →
  votes_disjoint (set_tips db (<[tip_id := tip]> (tips db))).
Proof. intros Hdb Htip. by apply map_Forall_insert_2. Qed.

Lemma votes_disjoint_delete db tip_id :
  votes_disjoint db → votes_disjoint (set_tips db (delete tip_id (tips db))).
Proof. intros Hdb. by apply map_Forall_delete. Qed.

Lemma votes_disjoint_update_reputation pk self db :
  votes_disjoint db → votes_disjoint (update_reputation pk self db).
Proof. done. Qed.

Lemma votes_disjoint_lookup db tip_id tip :
  votes_disjoint db → tips db !! tip_id = Some tip →
  upvotes tip ∩ downvotes tip = ∅.
Proof. intros Hdb Htip. by apply (Hdb tip_id). Qed.

Create HintDb store_inv.
#[local] Hint Resolve votes_disjoint_insert votes_disjoint_delete
  votes_disjoint_update_reputation votes_disjoint_lookup
  upvote_toggle_disjoint downvote_toggle_disjoint : store_inv.

Lemma votes_disjoint_step db db' :
  store_step db db' → votes_disjoint db → votes_disjoint db'.
Proof.
  destruct 1; intros Hdb; unfold Tip_save, Tip_delete;
    eauto 6 with store_inv.
Qed.

(** C2: starting from a store in which no tip has a user in both vote
    sets, after any finite sequence of requests (upvotes and downvotes by
    any voters, and also posts and deletions) no user is a member of both
    [upvotes] and [downvotes] of any tip. *)
Theorem votes_never_both reqs db :
  votes_disjoint db →
  votes_disjoint (run reqs db)
  ∧ ∀ tip_id tip user,
      tips (run reqs db) !! tip_id = Some tip →
      ¬ (user ∈ upvotes tip ∧ user ∈ downvotes tip).
Proof.
  intros Hdb.
  assert (Hrun : votes_disjoint (run reqs db)).
  { by apply (run_invariant _ votes_disjoint_step). }
  split; [done|].
  intros tip_id tip user Htip [Hup Hdown].
  pose proof (Hrun tip_id tip Htip) as Hd. simpl in Hd. set_solver.
Qed.

(** ** Invariant: stored reputations are not negative *)

Lemma reputations_nonneg_update_reputation pk self db :
  reputations_nonneg db → reputations_nonneg (update_reputation pk self db).
Proof.
  intros Hdb. unfold reputations_nonneg.
  rewrite update_reputation_users.
  apply map_Forall_insert_2; [|done].
  simpl. unfold spec_reputation. lia.
Qed.

Lemma reputations_nonneg_step db db' :
  store_step db db' → reputations_nonneg db → reputations_nonneg db'.
Proof.
  destruct 1; intros Hdb; try done;
    by apply reputations_nonneg_update_reputation.
Qed.

(** ** Invariant: stored reputations follow the votes *)

Lemma in_sync_update_reputation k a db db' :
  users db' = users db →
  (∀ pk, pk ≠ k → raw_score pk db' = raw_score pk db) →
  reputations_in_sync db → reputations_in_sync (update_reputation k a db').
Proof.
  intros Husers Hraw Hdb pk u. rewrite update_reputation_users.
  rewrite lookup_insert. case_decide as Hk.
  - subst pk. intros [= <-]. simpl. by apply spec_reputation_ext.
  - rewrite Husers. intros Hu. rewrite (Hdb pk u Hu).
    unfold spec_reputation.
    rewrite (raw_score_ext pk (update_reputation k a db') db') by done.
    rewrite Hraw; [done|congruence].
Qed.

Lemma in_sync_step db db' :
  store_step db db' → reputations_in_sync db → reputations_in_sync db'.
Proof.
  destruct 1 as [|pk u text now Hu|voter tip_id tip a Htip Ha
                 |voter tip_id tip Htip Ha|voter tip_id tip a Htip Ha
                 |tip_id tip a Htip Ha]; intros Hdb.
  - done.
  - unfold Tip_save. apply (in_sync_update_reputation _ _ db); [done| |done].
    intros pk' Hne. rewrite raw_score_insert_fresh.
    + unfold own_score. simpl. rewrite decide_False by done. lia.
    + apply not_elem_of_dom, is_fresh.
  - rewrite <- (upvote_toggle_author voter tip).
    apply (in_sync_update_reputation _ _ db); [done| |done].
    intros pk Hne. rewrite upvote_toggle_author in Hne.
    apply (raw_score_replace_other _ _ _ tip); [done| |done].
    apply upvote_toggle_author.
  - intros pk u Hu. simpl in Hu. rewrite (Hdb pk u Hu).
    unfold spec_reputation.
    rewrite (raw_score_replace_other pk db tip_id tip); [done|done| |].
    + apply upvote_toggle_author.
    + intros ->. by rewrite Ha in Hu.
  - rewrite <- (downvote_toggle_author voter tip).
    apply (in_sync_update_reputation _ _ db); [done| |done].
    intros pk Hne. rewrite downvote_toggle_author in Hne.
    apply (raw_score_replace_other _ _ _ tip); [done| |done].
    apply downvote_toggle_author.
  - unfold Tip_delete.
    apply (in_sync_update_reputation _ _ db); [done| |done].
    intros pk Hne. rewrite (raw_score_delete _ _ _ _ Htip).
    unfold own_score. rewrite decide_False by done. lia.
Qed.

(** C5: stored reputations stay non-negative.  From a store whose stored
    reputations are all at least 0, every sequence of requests (tip
    creation, upvote, downvote, deletion) leaves every stored reputation at
    least 0.  When moreover the stored reputations were the clamped raw
    totals to begin with, they still are after the requests, so a user
    whose tips have a negative raw total has stored reputation exactly 0.
    The recomputation itself stores exactly 0 on a raw total that is not
    positive, and an author whose only tip has 0 upvotes and 20 downvotes
    has raw total -40 and stored reputation 0. *)
Theorem reputation_never_negative reqs db :
  reputations_nonneg db →
  (∀ pk u, users (run reqs db) !! pk = Some u → (0 ≤ reputation u)%Z)
  ∧ (reputations_in_sync db →
     ∀ pk u, users (run reqs db) !! pk = Some u →
       reputation u = Z.max 0 (raw_score pk (run reqs db))
       ∧ ((raw_score pk (run reqs db) < 0)%Z → reputation u = 0%Z))
  ∧ (∀ pk self db0,
       (0 ≤ spec_reputation pk db0)%Z
       ∧ ((raw_score pk db0 ≤ 0)%Z →
          reputation <$> users (update_reputation pk self db0) !! pk
          = Some 0%Z))
  ∧ (∀ pk self db0,
       vote_counts <$> tips_all pk db0 = [(0, 20)%nat] →
       raw_score pk db0 = (-40)%Z
       ∧ reputation <$> users (update_reputation pk self db0) !! pk
         = Some 0%Z).
Proof.
  intros Hdb. split_and!.
  - by apply (run_invariant _ reputations_nonneg_step).
  - intros Hsync pk u Hu.
    pose proof (run_invariant _ in_sync_step reqs db Hsync pk u Hu) as Hrep.
    simpl in Hrep. unfold spec_reputation in Hrep. split; [done|lia].
  - intros pk self db0. split; [unfold spec_reputation; lia|].
    intros Hraw. rewrite update_reputation_users, lookup_insert_eq. simpl.
    unfold spec_reputation. f_equal. lia.
  - intros pk self db0 Hcounts.
    assert (Hraw : raw_score pk db0 = (-40)%Z).
    { by rewrite raw_score_tips_all, sum_scores_counts, Hcounts. }
    split; [done|].
    rewrite update_reputation_users, lookup_insert_eq. simpl.
    unfold spec_reputation. by rewrite Hraw.
Qed.

(** ** The permission gates *)

Lemma orb3_true_iff (p : Prop) `{!Decision p} (r : Z) (n : Z) (s : bool) :
  bool_decide p || ((n <=? r)%Z || s) = true
  ↔ p ∨ (n ≤ r)%Z ∨ s = true.
Proof.
  rewrite !orb_true_iff, bool_decide_eq_true, Z.leb_le. tauto.
Qed.

(** C3: for a tip in the store and an authenticated voter, [downvote_tip]
    goes through (redirects home after the toggle and the recomputation)
    exactly when the voter is the author, or has reputation at least 15, or
    is a superuser; otherwise it answers with the forbidden response and
    the store, with every vote set and every reputation, is unchanged.  A
    voter who is neither author nor superuser is refused at reputation 14
    and let through at reputation 15. *)
Theorem downvote_gate request tip_id db pk u tip a :
  session_user request = Some pk → users db !! pk = Some u →
  tips db !! tip_id = Some tip → users db !! author tip = Some a →
  let permitted := pk = author tip ∨ (15 ≤ reputation u)%Z
                   ∨ is_superuser u = true in
  let forbidden :=
    HttpResponseForbidden "You don't have permission to downvote this tip." in
  let result := downvote_tip request tip_id db in
  (result.1 = Redirect "home" ↔ permitted)
  ∧ (result.1 = forbidden ↔ ¬ permitted)
  ∧ (permitted →
     result = (Redirect "home",
               update_reputation (author tip) a
                 (set_tips db (<[tip_id := downvote_toggle pk tip]> (tips db)))))
  ∧ (¬ permitted → result = (forbidden, db))
  ∧ (pk ≠ author tip → is_superuser u = false →
     (reputation u = 14%Z → result = (forbidden, db))
     ∧ (reputation u = 15%Z → result.1 = Redirect "home")).
Proof.
  intros Hs Hu Htip Ha permitted forbidden result.
  assert (Hgate : bool_decide (pk = author tip) || can_downvote u = true
                  ↔ permitted).
  { unfold can_downvote. apply orb3_true_iff. }
  assert (Hyes : permitted →
     result = (Redirect "home",
               update_reputation (author tip) a
                 (set_tips db (<[tip_id := downvote_toggle pk tip]> (tips db))))).
  { intros Hp. apply Hgate in Hp.
    by apply (downvote_tip_permitted _ _ _ pk u tip Hs Hu Htip). }
  assert (Hno : ¬ permitted → result = (forbidden, db)).
  { intros Hp. rewrite <- Hgate in Hp. apply not_true_is_false in Hp.
    by apply (downvote_tip_refused _ _ _ pk u tip Hs Hu Htip a). }
  assert (Hdec : permitted ∨ ¬ permitted).
  { rewrite <- Hgate. destruct (_ || _); [by left|by right]. }
  split_and!; [| |done|done|].
  - split.
    + intros Hr. destruct Hdec as [Hp|Hp]; [done|].
      rewrite (Hno Hp) in Hr. done.
    + intros Hp. by rewrite (Hyes Hp).
  - split.
    + intros Hr Hp. rewrite (Hyes Hp) in Hr. done.
    + intros Hp. by rewrite (Hno Hp).
  - intros Hne Hsu. split.
    + intros Hrep. apply Hno. unfold permitted. rewrite Hrep, Hsu.
      intros [?|[?|?]]; [done|lia|done].
    + intros Hrep. rewrite Hyes; [done|].
      unfold permitted. rewrite Hrep. right. left. lia.
Qed.

(** C4: for a tip in the store and an authenticated requester,
    [delete_tip] goes through exactly when the requester is the author, or
    has reputation at least 30, or is a superuser; otherwise it answers
    with the forbidden response and the store is unchanged.  When it goes
    through, the tip's row is gone and the author's stored reputation is
    the clamped total over the author's remaining tips; no other row of
    either table changes. *)
Theorem delete_gate request tip_id db pk u tip a :
  session_user request = Some pk → users db !! pk = Some u →
  tips db !! tip_id = Some tip → users db !! author tip = Some a →
  let permitted := pk = author tip ∨ (30 ≤ reputation u)%Z
                   ∨ is_superuser u = true in
  let forbidden :=
    HttpResponseForbidden "You don't have permission to delete this tip." in
  let result := delete_tip request tip_id db in
  let remaining := set_tips db (delete tip_id (tips db)) in
  (result.1 = Redirect "home" ↔ permitted)
  ∧ (result.1 = forbidden ↔ ¬ permitted)
  ∧ (¬ permitted → result = (forbidden, db))
  ∧ (permitted →
     result = (Redirect "home", update_reputation (author tip) a remaining)
     ∧ tips (result.2) = delete tip_id (tips db)
     ∧ tips (result.2) !! tip_id = None
     ∧ users (result.2)
       = <[author tip := set_reputation a (spec_reputation (author tip) remaining)]>
           (users db)
     ∧ raw_score (author tip) remaining
       = (raw_score (author tip) db - tip_score tip)%Z)
  ∧ (pk ≠ author tip → is_superuser u = false →
     (reputation u = 29%Z → result = (forbidden, db))
     ∧ (reputation u = 30%Z → result.1 = Redirect "home")).
Proof.
  intros Hs Hu Htip Ha permitted forbidden result remaining.
  assert (Hgate : bool_decide (pk = author tip) || can_delete_tips u = true
                  ↔ permitted).
  { unfold can_delete_tips. apply orb3_true_iff. }
  assert (Hyes : permitted →
     result = (Redirect "home", update_reputation (author tip) a remaining)).
  { intros Hp. apply Hgate in Hp.
    by apply (delete_tip_permitted _ _ _ pk u tip Hs Hu Htip). }
  assert (Hno : ¬ permitted → result = (forbidden, db)).
  { intros Hp. rewrite <- Hgate in Hp. apply not_true_is_false in Hp.
    by apply (delete_tip_refused _ _ _ pk u tip Hs Hu Htip a). }
  assert (Hdec : permitted ∨ ¬ permitted).
  { rewrite <- Hgate. destruct (_ || _); [by left|by right]. }
  split_and!; [| |done| |].
  - split.
    + intros Hr. destruct Hdec as [Hp|Hp]; [done|].
      rewrite (Hno Hp) in Hr. done.
    + intros Hp. by rewrite (Hyes Hp).
  - split.
    + intros Hr Hp. rewrite (Hyes Hp) in Hr. done.
    + intros Hp. by rewrite (Hno Hp).
  - intros Hp. rewrite (Hyes Hp). split_and!; [done|done| | |].
    + simpl. apply lookup_delete_eq.
    + cbn [snd]. by rewrite update_reputation_users.
    + subst remaining. rewrite (raw_score_delete _ _ _ _ Htip).
      unfold own_score. by rewrite decide_True.
  - intros Hne Hsu. split.
    + intros Hrep. apply Hno. unfold permitted. rewrite Hrep, Hsu.
      intros [?|[?|?]]; [done|lia|done].
    + intros Hrep. rewrite Hyes; [done|].
      unfold permitted. rewrite Hrep. right. left. lia.
Qed.

(** ** The vote toggles *)

Lemma vote_state_NONE user tip :
  vote_state user tip = NONE ↔ (user ∉ upvotes tip) ∧ (user ∉ downvotes tip).
Proof.
  unfold vote_state. repeat case_bool_decide; split; try done; tauto.
Qed.

Lemma vote_state_UP user tip :
  vote_state user tip = UP ↔ user ∈ upvotes tip ∧ (user ∉ downvotes tip).
Proof.
  unfold vote_state. repeat case_bool_decide; split; try done; tauto.
Qed.

Lemma vote_state_DOWN user tip :
  vote_state user tip = DOWN ↔ (user ∉ upvotes tip) ∧ user ∈ downvotes tip.
Proof.
  unfold vote_state. repeat case_bool_decide; split; try done; tauto.
Qed.

Lemma upvote_toggle_NONE user tip :
  vote_state user tip = NONE →
  upvote_toggle user tip = set_upvotes tip ({[user]} ∪ upvotes tip).
Proof.
  rewrite vote_state_NONE. intros [Hup Hdown]. unfold upvote_toggle.
  rewrite (bool_decide_eq_false_2 _ Hdown).
  by rewrite (bool_decide_eq_false_2 _ Hup).
Qed.

Lemma upvote_toggle_UP user tip :
  vote_state user tip = UP →
  upvote_toggle user tip = set_upvotes tip (upvotes tip ∖ {[user]}).
Proof.
  rewrite vote_state_UP. intros [Hup Hdown]. unfold upvote_toggle.
  rewrite (bool_decide_eq_false_2 _ Hdown).
  by rewrite (bool_decide_eq_true_2 _ Hup).
Qed.

Lemma upvote_toggle_DOWN user tip :
  vote_state user tip = DOWN →
  upvote_toggle user tip
  = set_upvotes (set_downvotes tip (downvotes tip ∖ {[user]}))
                ({[user]} ∪ upvotes tip).
Proof.
  rewrite vote_state_DOWN. intros [Hup Hdown]. unfold upvote_toggle.
  rewrite (bool_decide_eq_true_2 _ Hdown). simpl.
  by rewrite (bool_decide_eq_false_2 _ Hup).
Qed.

Lemma downvote_toggle_UP user tip :
  vote_state user tip = UP →
  downvote_toggle user tip
  = set_downvotes (set_upvotes tip (upvotes tip ∖ {[user]}))
                  ({[user]} ∪ downvotes tip).
Proof.
  rewrite vote_state_UP. intros [Hup Hdown]. unfold downvote_toggle.
  rewrite (bool_decide_eq_true_2 _ Hup). simpl.
  by rewrite (bool_decide_eq_false_2 _ Hdown).
Qed.

Lemma upvote_tip_users_Some request tip_id db pk :
  is_Some (users db !! pk) →
  is_Some (users (upvote_tip request tip_id db).2 !! pk).
Proof.
  intros Hpk. unfold upvote_tip, login_required, upvote_tip_body.
  destruct (request_user request db) as [[k v]|]; [|done].
  destruct (tips db !! tip_id) as [tip|]; [|done].
  destruct (tip_author _ _); [|done].
  cbn [snd]. rewrite update_reputation_users.
  rewrite lookup_insert. case_decide; [by eexists|done].
Qed.

(** C6: for a tip in the store and an authenticated voter in state NONE on
    it, two [upvote_tip] requests in a row leave the voter in state NONE:
    the voter is in neither vote set, and both vote sets are what they were
    before. *)
Theorem upvote_twice_NONE request tip_id db pk u tip :
  session_user request = Some pk → users db !! pk = Some u →
  tips db !! tip_id = Some tip →
  vote_state pk tip = NONE →
  let db1 := (upvote_tip request tip_id db).2 in
  let db2 := (upvote_tip request tip_id db1).2 in
  ∃ tip1 tip2,
    tips db1 !! tip_id = Some tip1 ∧ vote_state pk tip1 = UP
    ∧ tips db2 !! tip_id = Some tip2 ∧ vote_state pk tip2 = NONE
    ∧ (pk ∉ upvotes tip2) ∧ (pk ∉ downvotes tip2)
    ∧ upvotes tip2 = upvotes tip ∧ downvotes tip2 = downvotes tip.
Proof.
  intros Hs Hu Htip Hnone db1 db2.
  pose proof Hnone as [Hup Hdown]%vote_state_NONE.
  assert (Htips1 : tips db1 = <[tip_id := upvote_toggle pk tip]> (tips db)).
  { by apply (upvote_tip_tips _ _ _ _ u). }
  assert (Htip1 : tips db1 !! tip_id = Some (upvote_toggle pk tip)).
  { by rewrite Htips1, lookup_insert_eq. }
  destruct (upvote_tip_users_Some request tip_id db pk) as [u1 Hu1];
    [by eexists|]. fold db1 in Hu1.
  assert (Hstate1 : vote_state pk (upvote_toggle pk tip) = UP).
  { rewrite vote_state_UP, (upvote_toggle_NONE _ _ Hnone). simpl.
    set_solver. }
  assert (Htip2 : tips db2 !! tip_id
                  = Some (upvote_toggle pk (upvote_toggle pk tip))).
  { subst db2. rewrite (upvote_tip_tips _ _ _ _ u1 _ Hs Hu1 Htip1).
    by rewrite lookup_insert_eq. }
  exists (upvote_toggle pk tip), (upvote_toggle pk (upvote_toggle pk tip)).
  rewrite (upvote_toggle_UP _ _ Hstate1) in *.
  rewrite (upvote_toggle_NONE _ _ Hnone) in *. simpl.
  split_and!; try done.
  - rewrite vote_state_NONE. simpl. set_solver.
  - set_solver.
  - set_solver.
Qed.

(** C7: for an authenticated voter in state NONE on a tip whose author row
    exists, [upvote_tip] followed by [downvote_tip], when the voter passes
    the downvote gate at that moment, redirects home and leaves the voter
    in [downvotes] and not in [upvotes] of the tip. *)
Theorem upvote_then_downvote request tip_id db pk u tip a :
  session_user request = Some pk → users db !! pk = Some u →
  tips db !! tip_id = Some tip → users db !! author tip = Some a →
  vote_state pk tip = NONE →
  let db1 := (upvote_tip request tip_id db).2 in
  let result := downvote_tip request tip_id db1 in
  (∀ u1, users db1 !! pk = Some u1 →
         pk = author tip ∨ can_downvote u1 = true) →
  result.1 = Redirect "home"
  ∧ ∃ tip2, tips (result.2) !! tip_id = Some tip2
            ∧ vote_state pk tip2 = DOWN
            ∧ pk ∈ downvotes tip2 ∧ (pk ∉ upvotes tip2).
Proof.
  intros Hs Hu Htip Ha Hnone db1 result Hgate.
  assert (Hdb1 : db1 = update_reputation (author tip) a
            (set_tips db (<[tip_id := upvote_toggle pk tip]> (tips db)))).
  { subst db1. rewrite (upvote_tip_unfold _ _ _ _ _ _ Hs Hu Htip).
    cbn zeta. by rewrite Ha. }
  assert (Htip1 : tips db1 !! tip_id = Some (upvote_toggle pk tip)).
  { rewrite Hdb1. simpl. by rewrite lookup_insert_eq. }
  destruct (upvote_tip_users_Some request tip_id db pk) as [u1 Hu1];
    [by eexists|]. fold db1 in Hu1.
  assert (Ha1 : is_Some (users db1 !! author tip)).
  { rewrite Hdb1, update_reputation_users, lookup_insert_eq. by eexists. }
  destruct Ha1 as [a1 Ha1].
  assert (Hstate1 : vote_state pk (upvote_toggle pk tip) = UP).
  { rewrite vote_state_UP, (upvote_toggle_NONE _ _ Hnone). simpl.
    apply vote_state_NONE in Hnone. set_solver. }
  rewrite <- (upvote_toggle_author pk tip) in Ha1.
  pose proof (downvote_tip_permitted request tip_id db1 pk u1 _
                Hs Hu1 Htip1 a1 Ha1) as Hyes.
  fold result in Hyes. rewrite Hyes.
  - split; [done|]. cbn [snd]. rewrite update_reputation_tips. simpl.
    rewrite lookup_insert_eq. eexists. split; [done|].
    rewrite (downvote_toggle_UP _ _ Hstate1).
    rewrite vote_state_DOWN. simpl.
    rewrite (upvote_toggle_NONE _ _ Hnone). simpl.
    apply vote_state_NONE in Hnone. set_solver.
  - rewrite upvote_toggle_author. apply orb_true_iff.
    destruct (Hgate u1 Hu1) as [Hauth|Hcan]; [left|by right].
    by apply bool_decide_eq_true.
Qed.

(** C8: for a tip in the store and an authenticated voter, whatever the
    voter's reputation, authorship or superuser flag, [upvote_tip] never
    answers with a forbidden response and always writes the toggled vote
    sets (NONE becomes UP, UP becomes NONE, DOWN becomes UP); it redirects
    home whenever the author's row exists.  The same voter, when neither
    author nor allowed to downvote, is refused by [downvote_tip]. *)
Theorem upvote_ungated request tip_id db pk u tip :
  session_user request = Some pk → users db !! pk = Some u →
  tips db !! tip_id = Some tip →
  let result := upvote_tip request tip_id db in
  (∀ msg, result.1 ≠ HttpResponseForbidden msg)
  ∧ tips (result.2) !! tip_id = Some (upvote_toggle pk tip)
  ∧ (vote_state pk tip = NONE → vote_state pk (upvote_toggle pk tip) = UP)
  ∧ (vote_state pk tip = UP → vote_state pk (upvote_toggle pk tip) = NONE)
  ∧ (vote_state pk tip = DOWN → vote_state pk (upvote_toggle pk tip) = UP)
  ∧ (∀ a, users db !! author tip = Some a →
       result.1 = Redirect "home"
       ∧ (pk ≠ author tip → can_downvote u = false →
          ∃ msg, downvote_tip request tip_id db
                 = (HttpResponseForbidden msg, db))).
Proof.
  intros Hs Hu Htip result.
  split_and!.
  - intros msg. subst result.
    rewrite (upvote_tip_unfold _ _ _ _ _ _ Hs Hu Htip). cbn zeta.
    by destruct (users db !! author tip).
  - subst result. rewrite (upvote_tip_tips _ _ _ _ _ _ Hs Hu Htip).
    apply lookup_insert_eq.
  - intros Hst. rewrite (upvote_toggle_NONE _ _ Hst).
    apply vote_state_NONE in Hst. rewrite vote_state_UP. simpl. set_solver.
  - intros Hst. rewrite (upvote_toggle_UP _ _ Hst).
    apply vote_state_UP in Hst. rewrite vote_state_NONE. simpl. set_solver.
  - intros Hst. rewrite (upvote_toggle_DOWN _ _ Hst).
    apply vote_state_DOWN in Hst. rewrite vote_state_UP. simpl. set_solver.
  - intros a Ha. split.
    + subst result. rewrite (upvote_tip_unfold _ _ _ _ _ _ Hs Hu Htip).
      cbn zeta. by rewrite Ha.
    + intros Hne Hcan. eexists.
      apply (downvote_tip_refused _ _ _ pk u tip Hs Hu Htip a); try done.
      apply orb_false_iff. split; [|done].
      by apply bool_decide_eq_false.
Qed.

(** ** Voting on one's own tip *)

Lemma tip_score_add_upvoter user tip :
  user ∉ upvotes tip →
  tip_score (set_upvotes tip ({[user]} ∪ upvotes tip)) = (tip_score tip + 5)%Z.
Proof.
  intros Hup. unfold tip_score. simpl.
  rewrite size_union by set_solver. rewrite size_singleton. lia.
Qed.

(** C9 (as amended): an authenticated author in state NONE on their own
    tip may upvote it: [upvote_tip] redirects home, adds the author to
    [upvotes] of the tip and stores as the author's reputation the maximum
    of 0 and the raw total before the vote plus 5.  That is 5 more than the
    reputation stored before when the stored value was the clamped raw
    total and the raw total was not negative; with a negative raw total the
    gain is less than 5. *)
Theorem self_upvote_reputation request tip_id db a tip :
  session_user request = Some (author tip) →
  users db !! author tip = Some a →
  tips db !! tip_id = Some tip →
  vote_state (author tip) tip = NONE →
  let result := upvote_tip request tip_id db in
  let after := Z.max 0 (raw_score (author tip) db + 5) in
  result.1 = Redirect "home"
  ∧ tips (result.2) !! tip_id
    = Some (set_upvotes tip ({[author tip]} ∪ upvotes tip))
  ∧ users (result.2) !! author tip = Some (set_reputation a after)
  ∧ (reputation a = spec_reputation (author tip) db →
     ((0 ≤ raw_score (author tip) db)%Z → after = (reputation a + 5)%Z)
     ∧ ((raw_score (author tip) db < 0)%Z →
        (reputation a ≤ after < reputation a + 5)%Z)).
Proof.
  intros Hs Ha Htip Hnone result after.
  pose proof Hnone as [Hup Hdown]%vote_state_NONE.
  assert (Hres : result = (Redirect "home",
            update_reputation (author tip) a
              (set_tips db (<[tip_id := upvote_toggle (author tip) tip]>
                              (tips db))))).
  { subst result. rewrite (upvote_tip_unfold _ _ _ _ _ _ Hs Ha Htip).
    cbn zeta. by rewrite Ha. }
  rewrite Hres. cbn [fst snd].
  rewrite (upvote_toggle_NONE _ _ Hnone).
  split_and!.
  - done.
  - rewrite update_reputation_tips. simpl. apply lookup_insert_eq.
  - rewrite update_reputation_users, lookup_insert_eq.
    unfold spec_reputation.
    rewrite (raw_score_replace _ _ _ _ _ Htip).
    unfold own_score. rewrite !decide_True by done.
    rewrite (tip_score_add_upvoter _ _ Hup).
    subst after. do 3 f_equal. lia.
  - unfold spec_reputation. subst after. intros Hsync. lia.
Qed.

(** ** The guest-name cookie *)

Lemma random_choice_elem seq draw name :
  Middleware.random_choice seq draw = Some name → name ∈ seq.
Proof.
  unfold Middleware.random_choice. destruct seq as [|x seq]; [done|].
  intros H. by apply list_elem_of_lookup_2 in H.
Qed.

Lemma random_choice_nonempty seq draw :
  seq ≠ [] → is_Some (Middleware.random_choice seq draw).
Proof.
  unfold Middleware.random_choice. destruct seq as [|x seq]; [done|].
  intros _. apply lookup_lt_is_Some. apply Nat.mod_upper_bound. done.
Qed.

(** C10: a request that carries no [defaultName] cookie (in particular
    one from an anonymous visitor) is handed on with a guest name the
    server chose, one of the configured names or the fallback, and its
    response sets the cookie [defaultName] to that name with a [max_age] of
    exactly 42 seconds. *)
Theorem guest_name_cookie_42 {S : Type} (NAMES_LIST : option (list string))
    (get_response : HttpRequest → S → Middleware.Response * S)
    (draw : nat) (request : HttpRequest) (st : S) :
  COOKIES request !! "defaultName" = None →
  let name := Middleware.choose_username NAMES_LIST draw in
  let inner := get_response (Middleware.set_defaultName request name) st in
  let result :=
    Middleware.UsernameMiddleware_call NAMES_LIST get_response draw request st in
  result = (Middleware.set_cookie "defaultName" name 42 (inner.1), inner.2)
  ∧ Middleware.cookies (result.1) !! "defaultName"
    = Some {| Middleware.value := name; Middleware.max_age := Some 42%Z |}
  ∧ Middleware.payload (result.1) = Middleware.payload (inner.1)
  ∧ (name = "defaultName"
     ∨ ∃ names, NAMES_LIST = Some names ∧ name ∈ names)
  ∧ (∀ names, NAMES_LIST = Some names → names ≠ [] → name ∈ names).
Proof.
  intros Hcookie name inner result.
  assert (Hres : result
            = (Middleware.set_cookie "defaultName" name 42 (inner.1), inner.2)).
  { subst result. unfold Middleware.UsernameMiddleware_call.
    rewrite Hcookie. fold name. fold inner. by destruct inner. }
  rewrite Hres. cbn [fst snd]. split_and!; [done| |done| |].
  - unfold Middleware.set_cookie. cbn [Middleware.cookies].
    apply lookup_insert_eq.
  - subst name. unfold Middleware.choose_username.
    destruct NAMES_LIST as [names|]; [|by left].
    destruct (Middleware.random_choice names draw) as [n|] eqn:Hn; [|by left].
    right. exists names. split; [done|]. by eapply random_choice_elem.
  - intros names -> Hne. subst name. unfold Middleware.choose_username.
    destruct (random_choice_nonempty names draw Hne) as [n Hn].
    rewrite Hn. by eapply random_choice_elem.
Qed.

(** * Worked instances *)

(** Settles a decidable property of a concrete store by evaluation. *)
Ltac by_evaluation :=
  apply (bool_decide_unpack _); vm_compute; exact I.

Lemma update_reputation_formula_witness :
  reputation <$> users (update_reputation 1 alice db_three) !! 1 = Some 7%Z
  ∧ reputation <$> users (update_reputation 3 carol db_three) !! 3 = Some 0%Z.
Proof.
  split.
  - destruct (update_reputation_formula 1 alice db_three)
      as (_ & _ & _ & _ & H & _).
    apply H. vm_compute. apply perm_skip, perm_swap.
  - destruct (update_reputation_formula 3 carol db_three)
      as (_ & _ & _ & _ & _ & H).
    apply H. vm_compute. reflexivity.
Defined.

Lemma votes_never_both_witness :
  votes_disjoint db_three
  ∧ votes_disjoint
      (run [(as_user 3, PostUpvote 11); (as_user 5, PostDownvote 10);
            (as_user 2, PostDownvote 10); (as_user 1, PostUpvote 13)]
           db_three).
Proof.
  assert (H : votes_disjoint db_three).
  { unfold votes_disjoint. by_evaluation. }
  split; [exact H|].
  apply (votes_never_both _ db_three H).
Defined.

Lemma downvote_gate_witness :
  downvote_tip (as_user 2) 10 db_three
  = (HttpResponseForbidden "You don't have permission to downvote this tip.",
     db_three)
  ∧ (downvote_tip (as_user 3) 10 db_three).1 = Redirect "home".
Proof.
  split.
  - destruct (downvote_gate (as_user 2) 10 db_three 2 bob
                (sample_tip 1 [2; 3] []) alice)
      as (_ & _ & _ & _ & H);
    [vm_compute; reflexivity ..|].
    apply H; [vm_compute; lia|reflexivity|reflexivity].
  - destruct (downvote_gate (as_user 3) 10 db_three 3 carol
                (sample_tip 1 [2; 3] []) alice)
      as (_ & _ & _ & _ & H);
    [vm_compute; reflexivity ..|].
    apply H; [vm_compute; lia|reflexivity|reflexivity].
Defined.

Lemma delete_gate_witness :
  delete_tip (as_user 3) 12 db_three
  = (HttpResponseForbidden "You don't have permission to delete this tip.",
     db_three)
  ∧ tips (delete_tip (as_user 4) 12 db_three).2 !! 12 = None
  ∧ reputation <$> users (delete_tip (as_user 4) 12 db_three).2 !! 1
    = Some 13%Z.
Proof.
  split.
  - destruct (delete_gate (as_user 3) 12 db_three 3 carol
                (sample_tip 1 [] [3; 4; 5]) alice)
      as (_ & _ & Hno & _);
      [vm_compute; reflexivity ..|].
    apply Hno. vm_compute. intros [?|[?|?]]; [lia|done|done].
  - destruct (delete_gate (as_user 4) 12 db_three 4 dave
                (sample_tip 1 [] [3; 4; 5]) alice)
      as (_ & _ & _ & Hyes & _);
      [vm_compute; reflexivity ..|].
    destruct Hyes as (_ & _ & Hgone & Husers & _).
    { right. left. vm_compute. discriminate. }
    split; [exact Hgone|].
    rewrite Husers. vm_compute. reflexivity.
Defined.

Lemma reputation_never_negative_witness :
  reputations_nonneg db_twenty ∧ reputations_in_sync db_twenty
  ∧ (∀ pk u,
       users (run [(as_user 1, PostHome (Some "Sleep early.") 7);
                   (as_user 100, PostDownvote 10); (as_user 1, PostUpvote 10);
                   (as_user 119, PostDelete 11)] db_twenty) !! pk = Some u →
       (0 ≤ reputation u)%Z
       ∧ reputation u
         = Z.max 0 (raw_score pk
             (run [(as_user 1, PostHome (Some "Sleep early.") 7);
                   (as_user 100, PostDownvote 10); (as_user 1, PostUpvote 10);
                   (as_user 119, PostDelete 11)] db_twenty)))
  ∧ raw_score 1 db_twenty = (-40)%Z
  ∧ reputation <$> users (update_reputation 1 alice db_twenty) !! 1 = Some 0%Z.
Proof.
  assert (Hnn : reputations_nonneg db_twenty).
  { unfold reputations_nonneg. by_evaluation. }
  assert (Hsync : reputations_in_sync db_twenty).
  { unfold reputations_in_sync. by_evaluation. }
  destruct (reputation_never_negative
              [(as_user 1, PostHome (Some "Sleep early.") 7);
               (as_user 100, PostDownvote 10); (as_user 1, PostUpvote 10);
               (as_user 119, PostDelete 11)] db_twenty Hnn)
    as (Hrun & Hrun' & _ & Hex).
  split_and!; [exact Hnn|exact Hsync| |apply (Hex 1 alice db_twenty) ..].
  - intros pk u Hu. split; [by apply (Hrun pk)|by apply (Hrun' Hsync pk)].
  - vm_compute. reflexivity.
  - vm_compute. reflexivity.
Defined.

Lemma upvote_twice_NONE_witness :
  ∃ tip1 tip2,
    tips (upvote_tip (as_user 5) 10 db_pair).2 !! 10 = Some tip1
    ∧ vote_state 5 tip1 = UP
    ∧ tips (upvote_tip (as_user 5) 10
              (upvote_tip (as_user 5) 10 db_pair).2).2 !! 10 = Some tip2
    ∧ vote_state 5 tip2 = NONE
    ∧ (5 ∉ upvotes tip2) ∧ (5 ∉ downvotes tip2)
    ∧ upvotes tip2 = upvotes (sample_tip 1 [] [])
    ∧ downvotes tip2 = downvotes (sample_tip 1 [] []).
Proof.
  apply (upvote_twice_NONE (as_user 5) 10 db_pair 5 root (sample_tip 1 [] []));
    vm_compute; reflexivity.
Defined.

Lemma upvote_then_downvote_witness :
  (downvote_tip (as_user 5) 10 (upvote_tip (as_user 5) 10 db_pair).2).1
  = Redirect "home"
  ∧ ∃ tip2,
      tips (downvote_tip (as_user 5) 10
              (upvote_tip (as_user 5) 10 db_pair).2).2 !! 10 = Some tip2
      ∧ vote_state 5 tip2 = DOWN
      ∧ 5 ∈ downvotes tip2 ∧ (5 ∉ upvotes tip2).
Proof.
  apply (upvote_then_downvote (as_user 5) 10 db_pair 5 root
           (sample_tip 1 [] []) alice);
    [vm_compute; reflexivity ..|].
  intros u1 Hu1. right.
  vm_compute in Hu1. injection Hu1 as <-. reflexivity.
Defined.

Lemma upvote_ungated_witness :
  (upvote_tip (as_user 1) 13 db_three).1 = Redirect "home"
  ∧ tips (upvote_tip (as_user 1) 13 db_three).2 !! 13
    = Some (upvote_toggle 1 (sample_tip 2 [1] []))
  ∧ ∃ msg, downvote_tip (as_user 1) 13 db_three
           = (HttpResponseForbidden msg, db_three).
Proof.
  destruct (upvote_ungated (as_user 1) 13 db_three 1 alice
              (sample_tip 2 [1] [])) as (_ & Htip & _ & _ & _ & H);
    [vm_compute; reflexivity ..|].
  destruct (H bob) as [Hhome Hdown]; [vm_compute; reflexivity|].
  split; [exact Hhome|]. split; [exact Htip|].
  apply Hdown; [vm_compute; lia|reflexivity].
Defined.

Lemma self_upvote_reputation_witness :
  (upvote_tip (as_user 1) 10 db_pair).1 = Redirect "home"
  ∧ users (upvote_tip (as_user 1) 10 db_pair).2 !! 1
    = Some (set_reputation alice (Z.max 0 (raw_score 1 db_pair + 5)))
  ∧ Z.max 0 (raw_score 1 db_pair + 5) = (reputation alice + 5)%Z.
Proof.
  destruct (self_upvote_reputation (as_user 1) 10 db_pair alice
              (sample_tip 1 [] [])) as (Hhome & _ & Hrep & Hsync);
    [vm_compute; reflexivity ..|].
  split; [exact Hhome|]. split; [exact Hrep|].
  apply Hsync; vm_compute; [reflexivity|discriminate].
Defined.

(** C9, as first stated, fails: after root's downvote alice's raw total is
    -2 and her stored reputation 0; her own upvote brings the raw total to
    3, so the stored reputation goes from 0 to 3, not to 5. *)
Lemma self_upvote_gains_less_than_five :
  db_downvoted = (downvote_tip (as_user 5) 10 db_pair).2
  ∧ reputations_in_sync db_downvoted
  ∧ users db_downvoted !! 1 = Some alice
  ∧ reputation <$> users (upvote_tip (as_user 1) 10 db_downvoted).2 !! 1
    = Some 3%Z
  ∧ ¬ (∀ request tip_id db a tip,
         session_user request = Some (author tip) →
         users db !! author tip = Some a →
         tips db !! tip_id = Some tip →
         vote_state (author tip) tip = NONE →
         (upvote_tip request tip_id db).1 = Redirect "home"
         ∧ (∃ tip1, tips (upvote_tip request tip_id db).2 !! tip_id = Some tip1
                    ∧ author tip ∈ upvotes tip1)
         ∧ reputation <$> users (upvote_tip request tip_id db).2 !! author tip
           = Some (reputation a + 5)%Z).
Proof.
  split; [vm_compute; reflexivity|].
  split.
  { unfold reputations_in_sync. by_evaluation. }
  split; [vm_compute; reflexivity|].
  split; [vm_compute; reflexivity|].
  intros H.
  destruct (H (as_user 1) 10 db_downvoted alice (sample_tip 1 [] [5]))
    as (_ & _ & Hrep);
    [vm_compute; reflexivity ..|].
  vm_compute in Hrep. discriminate.
Qed.

Lemma guest_name_cookie_42_witness :
  COOKIES anonymous !! "defaultName" = None
  ∧ Middleware.cookies
      (Middleware.UsernameMiddleware_call (Some ["Fox"; "Owl"; "Elk"])
         plain_home 7 anonymous db_pair).1 !! "defaultName"
    = Some {| Middleware.value := "Owl"; Middleware.max_age := Some 42%Z |}.
Proof.
  split; [reflexivity|].
  destruct (guest_name_cookie_42 (Some ["Fox"; "Owl"; "Elk"]) plain_home 7
              anonymous db_pair) as (_ & H & _); [reflexivity|].
  exact H.
Defined.
